(** * Monarch: card badges, card controls and the click dispatch table

    A shallow embedding of the descriptor engine of the Monarch card UI
    (MonarchApplicationMixin.js, Components.js) and the proofs of its
    specified properties.

    - JavaScript data is the inductive [value]; an object is the list of its
      own properties in insertion order, an array is a list.
    - A descriptor field is either a plain value or a callable.  A callable
      receives the card by reference, so it is a state transformer on the
      card: it returns its value together with the card as it leaves it.
    - The accumulator of [controlReducer] is one array that [push] mutates;
      the embedding threads its contents through the fold.
    - [Object.fromEntries] builds a finite map ([gmap]). *)

From stdpp Require Import gmap strings list fin_maps.

Set Warnings "-register-all".

Open Scope string_scope.
Open Scope list_scope.

(** ** JavaScript values *)

Inductive value : Type :=
| VUndefined
| VNull
| VBool (b : bool)
| VNum (n : Z)
| VStr (s : string)
| VArr (items : list value)
| VObj (props : list (string * value)).

(** The names of the own properties of an object, in insertion order
    ([Object.keys]). *)
Definition keys (v : value) : list string :=
  match v with
  | VObj props => map fst props
  | _ => []
  end.

(** Reading a property of an object literal: the first binding of the name
    (the object literals built here never repeat a name); [None] when the
    object has no such own property. *)
Fixpoint assoc (k : string) (props : list (string * value)) : option value :=
  match props with
  | [] => None
  | (k', v) :: rest => if String.eqb k k' then Some v else assoc k rest
  end.

Definition prop (v : value) (k : string) : option value :=
  match v with
  | VObj props => assoc k props
  | _ => None
  end.

(** ** Descriptors *)

Section Engine.

(** The card a descriptor is resolved against, and the click handlers
    stored in [onclick]. The engine never looks inside either. *)
Context {Subject Handler : Type}.

(** An attribute: a plain value (an absent property reads as
    [undefined]) or a function called with the card. *)
Inductive field : Type :=
| Lit (v : value)
| Fn (f : Subject -> value * Subject).

(** A callable that only reads the card. *)
Definition reads (g : Subject -> value) : field :=
  Fn (fun card => (g card, card)).

(** A field is pure when calling it leaves the card as it found it. *)
Definition pure_field (a : field) : Prop :=
  match a with
  | Lit _ => True
  | Fn f => forall card, snd (f card) = card
  end.

(** typedef CardBadge *)
Record CardBadge : Type := mkBadge {
  badge_tooltip : field;
  badge_text : field;
  badge_class : option string;
  badge_hide : field
}.

(** typedef CardControl: leaves and groups share the type, a group is a
    control with a [controls] property. *)
Inductive CardControl : Type := mkControl {
  control_tooltip : field;
  control_aria : field;
  control_icon : field;
  control_class : option string;
  control_disabled : field;
  control_onclick : option Handler;
  control_controls : option (list CardControl)
}.

(** Modelled from the spec: [utils.functionOrString] (utils.js is not part
    of the sources at hand). Section 4.1: an absent or undefined field gives
    the constant function of the default, a plain value the constant
    function of that value, and a callable is returned as it is. *)
Definition functionOrString (a : field) (defaultValue : value)
  : Subject -> value * Subject :=
  match a with
  | Lit VUndefined => fun card => (defaultValue, card)
  | Lit v => fun card => (v, card)
  | Fn f => f
  end.

(** [x ?? ""] on an optional string. *)
Definition class_or_empty (c : option string) : string :=
  match c with
  | Some s => s
  | None => ""
  end.

(** ** applyCardControls / applyCardControl

    The object literal evaluates its properties in source order, so the
    card passes through tooltip, aria, icon, disabled and then the
    children, left to right. *)
Fixpoint applyCardControl (card : Subject) (control : CardControl)
  {struct control} : value * Subject :=
  let '(tooltip, card) := functionOrString (control_tooltip control) (VStr "") card in
  let '(aria, card) := functionOrString (control_aria control) (VStr "") card in
  let '(icon, card) := functionOrString (control_icon control) (VStr "") card in
  let class := class_or_empty (control_class control) in
  let '(disabled, card) := functionOrString (control_disabled control) (VBool false) card in
  let '(controls, card) :=
    match control_controls control with
    | Some children =>
        (fix each (card : Subject) (cs : list CardControl) {struct cs}
           : list value * Subject :=
           match cs with
           | [] => ([], card)
           | c :: rest =>
               let '(r, card) := applyCardControl card c in
               let '(rs, card) := each card rest in
               (r :: rs, card)
           end) card children
    | None => ([], card)
    end in
  (VObj [("tooltip", tooltip); ("aria", aria); ("icon", icon);
         ("class", VStr class); ("disabled", disabled);
         ("controls", VArr controls)], card).

(** [controls.map(control => this.applyCardControl(card, control))] *)
Fixpoint applyCardControls (card : Subject) (controls : list CardControl)
  : list value * Subject :=
  match controls with
  | [] => ([], card)
  | c :: rest =>
      let '(r, card) := applyCardControl card c in
      let '(rs, card) := applyCardControls card rest in
      (r :: rs, card)
  end.

(** ** applyCardBadges *)
Definition applyCardBadge (card : Subject) (badge : CardBadge)
  : value * Subject :=
  let '(tooltip, card) := functionOrString (badge_tooltip badge) (VStr "") card in
  let '(text, card) := functionOrString (badge_text badge) (VStr "") card in
  let '(hide, card) := functionOrString (badge_hide badge) (VBool false) card in
  let class := class_or_empty (badge_class badge) in
  (VObj [("tooltip", tooltip); ("text", text); ("hide", hide);
         ("class", VStr class)], card).

Fixpoint applyCardBadges (card : Subject) (badges : list CardBadge)
  : list value * Subject :=
  match badges with
  | [] => ([], card)
  | b :: rest =>
      let '(r, card) := applyCardBadge card b in
      let '(rs, card) := applyCardBadges card rest in
      (r :: rs, card)
  end.

(** ** controlReducer and the dispatch table *)

(** [Array.prototype.push] on the accumulator. *)
Definition push {A : Type} (array : list A) (x : A) : list A := array ++ [x].

(** [control.onclick && control.class]: a function is truthy, a string is
    truthy unless it is empty. The inner [reduce] hands the same array on to
    the children; its contents are threaded through [fold_left]. *)
Fixpoint controlReducer (controls : list (string * Handler))
  (control : CardControl) {struct control} : list (string * Handler) :=
  let controls :=
    match control_onclick control, control_class control with
    | Some onclick, Some class =>
        if String.eqb class "" then controls
        else push controls (class, onclick)
    | _, _ => controls
    end in
  match control_controls control with
  | Some children => fold_left controlReducer children controls
  | None => controls
  end.

(** [Object.fromEntries]: the entries are written in order, a later entry
    replaces an earlier one of the same key. *)
Definition fromEntries (entries : list (string * Handler))
  : gmap string Handler :=
  fold_left (fun o e => <[e.1 := e.2]> o) entries ∅.

(** [this._controlFns] as [getData] computes it from [data.controls]. *)
Definition controlFns (controls : list CardControl) : gmap string Handler :=
  fromEntries (fold_left controlReducer controls []).

End Engine.

Arguments field : clear implicits.
Arguments CardBadge : clear implicits.
Arguments CardControl : clear implicits.

(** ** What the dispatch table is specified to hold *)

Section Traversal.

Context {Subject Handler : Type}.

(** A property that an object literal leaves out. *)
Definition absent : field Subject := Lit VUndefined.

(** The pair a control gives to the dispatch table by itself: it has both
    an [onclick] and a non-empty [class]. *)
Definition own_entry (control : CardControl Subject Handler)
  : list (string * Handler) :=
  match control_onclick control, control_class control with
  | Some onclick, Some class =>
      if String.eqb class "" then [] else [(class, onclick)]
  | _, _ => []
  end.

(** The controls of a tree in document order: a control, then the controls
    of its [controls] sub-sequence, depth first, children in their own
    order. *)
Fixpoint nodes (control : CardControl Subject Handler)
  : list (CardControl Subject Handler) :=
  control ::
  match control_controls control with
  | Some children => flat_map nodes children
  | None => []
  end.

(** The flattener as section 4.3 words it: a control appends its pair, then
    its sub-sequence is folded in, depth first. *)
Fixpoint document_entries (control : CardControl Subject Handler)
  : list (string * Handler) :=
  own_entry control ++
  match control_controls control with
  | Some children => flat_map document_entries children
  | None => []
  end.

(** The computed fields of one control leave the card alone. *)
Definition pure_node (control : CardControl Subject Handler) : Prop :=
  pure_field (control_tooltip control) /\
  pure_field (control_aria control) /\
  pure_field (control_icon control) /\
  pure_field (control_disabled control).

(** ... and so do those of every control of a list, at any depth. *)
Definition pure_controls (controls : list (CardControl Subject Handler)) : Prop :=
  Forall pure_node (flat_map nodes controls).

(** A leaf that can never be clicked: an [onclick] but no usable class. *)
Definition classless_leaf (control : CardControl Subject Handler) : Prop :=
  is_Some (control_onclick control) /\
  (control_class control = None \/ control_class control = Some "") /\
  control_controls control = None.

(** A group: a control with a [controls] sub-sequence. *)
Definition is_group (control : CardControl Subject Handler) : Prop :=
  is_Some (control_controls control).

End Traversal.

(** ** The host's card, as the built-in descriptors read it *)

(** [card.data]: suit, value and type are whatever the deck stores; [face]
    is the index of the face shown, or [null] for the back. *)
Record CardData : Type := mkCardData {
  data_suit : value;
  data_value : value;
  data_type : value;
  data_face : option Z
}.

Record Card : Type := mkCard {
  card_name : value;
  hasNextFace : bool;
  hasPreviousFace : bool;
  data : CardData
}.

(** The DOM event of a click; no handler below reads it. *)
Record Event : Type := mkEvent { event_type : string }.

(** What a click handler asks of the host: [card.update(changes)]. *)
Inductive HostCall : Type :=
| CardUpdate (card : Card) (changes : list (string * value)).

Definition clickCallback : Type := Event -> Card -> HostCall.

(** [card.data.face === null ? 0 : card.data.face + 1] *)
Definition face_after (card : Card) : value :=
  match data_face (data card) with
  | None => VNum 0
  | Some face => VNum (face + 1)
  end.

(** [card.data.face === 0 ? null : card.data.face - 1]; [null - 1] is -1. *)
Definition face_before (card : Card) : value :=
  match data_face (data card) with
  | Some 0%Z => VNull
  | Some face => VNum (face - 1)
  | None => VNum (-1)
  end.

(** ** Components.js: the descriptor library *)

Module Controls.

Definition faceNext : CardControl Card clickCallback :=
  {| control_tooltip := Lit (VStr "CARD.FaceNext");
     control_aria := absent;
     control_icon := Lit (VStr "fas fa-caret-up");
     control_class := Some "next-face";
     control_disabled := reads (fun card => VBool (negb (hasNextFace card)));
     control_onclick :=
       Some (fun event card => CardUpdate card [("face", face_after card)]);
     control_controls := None |}.

Definition facePrevious : CardControl Card clickCallback :=
  {| control_tooltip := Lit (VStr "CARD.FacePrevious");
     control_aria := absent;
     control_icon := Lit (VStr "fas fa-caret-down");
     control_class := Some "prev-face";
     control_disabled := reads (fun card => VBool (negb (hasPreviousFace card)));
     control_onclick :=
       Some (fun event card => CardUpdate card [("face", face_before card)]);
     control_controls := None |}.

Definition faces : CardControl Card clickCallback :=
  {| control_tooltip := absent;
     control_aria := absent;
     control_icon := absent;
     control_class := Some "card-faces";
     control_disabled := absent;
     control_onclick := None;
     control_controls := Some [faceNext; facePrevious] |}.

Definition default : list (CardControl Card clickCallback) := [faces].

End Controls.

Module Badges.

Definition suit : CardBadge Card :=
  {| badge_tooltip := Lit (VStr "CARD.Suit");
     badge_text := reads (fun card => data_suit (data card));
     badge_class := Some "card-suit";
     badge_hide := absent |}.

Definition value : CardBadge Card :=
  {| badge_tooltip := Lit (VStr "CARD.Value");
     badge_text := reads (fun card => data_value (data card));
     badge_class := Some "card-value";
     badge_hide := absent |}.

Definition type : CardBadge Card :=
  {| badge_tooltip := Lit (VStr "CARD.Type");
     badge_text := reads (fun card => data_type (data card));
     badge_class := Some "card-type";
     badge_hide := absent |}.

Definition default : list (CardBadge Card) := [suit; value; type].

End Badges.

(** ** MonarchApplicationMixin: the getters that inline the defaults *)

Module MonarchApplicationMixin.

Definition controls : list (CardControl Card clickCallback) :=
  [ {| control_tooltip := absent;
       control_aria := absent;
       control_icon := absent;
       control_class := Some "card-faces";
       control_disabled := absent;
       control_onclick := None;
       control_controls := Some
         [ {| control_tooltip := Lit (VStr "CARD.FaceNext");
              control_aria := absent;
              control_icon := Lit (VStr "fas fa-caret-up");
              control_class := Some "next-face";
              control_disabled :=
                reads (fun card => VBool (negb (hasNextFace card)));
              control_onclick :=
                Some (fun event card =>
                        CardUpdate card [("face", face_after card)]);
              control_controls := None |};
           {| control_tooltip := Lit (VStr "CARD.FacePrevious");
              control_aria := absent;
              control_icon := Lit (VStr "fas fa-caret-down");
              control_class := Some "prev-face";
              control_disabled :=
                reads (fun card => VBool (negb (hasPreviousFace card)));
              control_onclick :=
                Some (fun event card =>
                        CardUpdate card [("face", face_before card)]);
              control_controls := None |} ] |} ].

Definition badges : list (CardBadge Card) :=
  [ {| badge_tooltip := Lit (VStr "CARD.Suit");
       badge_text := reads (fun card => data_suit (data card));
       badge_class := Some "card-suit";
       badge_hide := absent |};
    {| badge_tooltip := Lit (VStr "CARD.Value");
       badge_text := reads (fun card => data_value (data card));
       badge_class := Some "card-value";
       badge_hide := absent |};
    {| badge_tooltip := Lit (VStr "CARD.Type");
       badge_text := reads (fun card => data_type (data card));
       badge_class := Some "card-type";
       badge_hide := absent |} ].

End MonarchApplicationMixin.

(** ** Example descriptors of the specification *)

(** [{class: c, onclick: h}] *)
Definition leaf {Subject Handler : Type} (class : string) (onclick : Handler)
  : CardControl Subject Handler :=
  {| control_tooltip := absent; control_aria := absent;
     control_icon := absent; control_class := Some class;
     control_disabled := absent; control_onclick := Some onclick;
     control_controls := None |}.

(** [{class: c, controls: [...]}] *)
Definition group {Subject Handler : Type} (class : string)
  (children : list (CardControl Subject Handler))
  : CardControl Subject Handler :=
  {| control_tooltip := absent; control_aria := absent;
     control_icon := absent; control_class := Some class;
     control_disabled := absent; control_onclick := None;
     control_controls := Some children |}.

(** The subject [{name: "Ace"}] and its like: a record with a name only. *)
Record Named : Type := mkNamed { name : value }.

(** [{tooltip: "T", text: c => c.name, class: "x"}] *)
Definition name_badge : CardBadge Named :=
  {| badge_tooltip := Lit (VStr "T");
     badge_text := reads (fun c => name c);
     badge_class := Some "x";
     badge_hide := absent |}.

(** The computed fields of a badge leave the card alone. *)
Definition pure_badge {Subject : Type} (badge : CardBadge Subject) : Prop :=
  pure_field (badge_tooltip badge) /\
  pure_field (badge_text badge) /\
  pure_field (badge_hide badge).

(** The value a field resolves to on a card. *)
Definition resolved {Subject : Type} (a : field Subject) (defaultValue : value)
  (card : Subject) : value :=
  fst (functionOrString a defaultValue card).

(** A card showing its last face: there is a previous face and no next
    one. *)
Definition last_face_card : Card :=
  {| card_name := VStr "Ace";
     hasNextFace := false;
     hasPreviousFace := true;
     data := {| data_suit := VStr "spades"; data_value := VNum 1;
                data_type := VStr "base"; data_face := Some 1%Z |} |}.

(** A callable that counts its calls on the subject, to show what purity
    rules out. *)
Definition counting_control : CardControl nat unit :=
  {| control_tooltip := Fn (fun n => (VNum (Z.of_nat n), S n));
     control_aria := absent; control_icon := absent;
     control_class := Some "count"; control_disabled := absent;
     control_onclick := None; control_controls := None |}.

(** ** MonarchApplicationMixin: the image url of a card *)

(** The part of a card that [_getCssImageUrl] reads and writes: the image
    path and the CSS value computed from it (unset until then). *)
Record CardImage : Type := mkCardImage {
  img : string;
  cssImage : option string
}.

(** [String.prototype.startsWith] *)
Definition startsWith (s searchString : string) : bool :=
  String.prefix searchString s.

(** The prefix [_getCssImageUrl] puts before the image path. *)
Definition image_prefix (image : string) : string :=
  if startsWith image "/" || startsWith image "http" then "" else "/".

(** [card.cssImage = `url('${prefix}${image}')`] *)
Definition _getCssImageUrl (card : CardImage) : CardImage :=
  let image := img card in
  let prefix := image_prefix image in
  {| img := img card;
     cssImage := Some ("url('" +:+ prefix +:+ image +:+ "')") |}.

(** ** MonarchHand: the controls of a hand *)

Module MonarchHand.

(** [get controls()]: the inherited controls followed by the group of the
    play control. The superclass (MonarchCardsConfig), [game.i18n.format] and
    [this.object.playDialog] belong to the host and are taken as they come. *)
Definition controls {Call : Type}
  (i18n_format : string -> list (string * value) -> value)
  (playDialog : Card -> Call)
  (super_controls : list (CardControl Card (Event -> Card -> Call)))
  : list (CardControl Card (Event -> Card -> Call)) :=
  super_controls ++
  [ {| control_tooltip := absent;
       control_aria := absent;
       control_icon := absent;
       control_class := Some "basic-controls";
       control_disabled := absent;
       control_onclick := None;
       control_controls := Some
         [ {| control_tooltip := Lit (VStr "CARD.Play");
              control_aria :=
                reads (fun card =>
                         i18n_format "monarch.aria.playCard"
                                     [("name", card_name card)]);
              control_icon := Lit (VStr "fas fa-chevron-circle-right");
              control_class := Some "play-card";
              control_disabled := absent;
              control_onclick := Some (fun event card => playDialog card);
              control_controls := None |} ] |} ].

End MonarchHand.

(** ** Notions used to state the further properties *)

(** The children of a control, none for a leaf. *)
Definition children_of {Subject Handler : Type}
  (control : CardControl Subject Handler)
  : list (CardControl Subject Handler) :=
  match control_controls control with
  | Some children => children
  | None => []
  end.

(** A resolved record mirrors its descriptor: the six fields in order, the
    descriptor's class, and under [controls] one record per child, each
    mirroring its own child. *)
Inductive mirrors {Subject Handler : Type}
  : CardControl Subject Handler -> value -> Prop :=
| mirrors_record control tooltip aria icon disabled records :
    Forall2 mirrors (children_of control) records ->
    mirrors control
      (VObj [("tooltip", tooltip); ("aria", aria); ("icon", icon);
             ("class", VStr (class_or_empty (control_class control)));
             ("disabled", disabled); ("controls", VArr records)]).

(** The same tree with other attribute fields and other handlers: classes
    and nesting are kept. *)
Fixpoint map_control {S H S' H' : Type}
  (on_field : field S -> field S') (on_handler : H -> H')
  (control : CardControl S H) : CardControl S' H' :=
  {| control_tooltip := on_field (control_tooltip control);
     control_aria := on_field (control_aria control);
     control_icon := on_field (control_icon control);
     control_class := control_class control;
     control_disabled := on_field (control_disabled control);
     control_onclick := option_map on_handler (control_onclick control);
     control_controls :=
       option_map (map (map_control on_field on_handler))
                  (control_controls control) |}.

(** A control that a click can reach: it has a handler and a non-empty
    class. *)
Definition clickable {Subject Handler : Type}
  (control : CardControl Subject Handler) (k : string) (h : Handler) : Prop :=
  control_onclick control = Some h /\ control_class control = Some k /\
  k <> "".


(** * Properties *)

(** ** Induction over control trees *)

Lemma CardControl_tree_ind {Subject Handler : Type}
  (P : CardControl Subject Handler -> Prop) :
  (forall c,
     (forall children, control_controls c = Some children ->
                       Forall P children) ->
     P c) ->
  forall c, P c.
Proof.
  intros step. fix IH 1. intros c. apply step.
  destruct c as [t a i cl d o [l|]]; simpl; intros children E;
    [injection E as <- | discriminate E].
  induction l as [|x l IHl]; constructor; [apply IH | exact IHl].
Qed.

Section Flattening.

Context {Subject Handler : Type}.
Implicit Types (control : CardControl Subject Handler)
  (controls : list (CardControl Subject Handler))
  (acc entries : list (string * Handler)).

(** The reducer, with its [if] read as "append the control's own pair". *)
Lemma controlReducer_unfold acc control :
  controlReducer acc control =
  match control_controls control with
  | Some children => fold_left controlReducer children (acc ++ own_entry control)
  | None => acc ++ own_entry control
  end.
Proof.
  destruct control as [t a i [cl|] d [o|] cs]; cbn [controlReducer own_entry
    control_onclick control_class control_controls];
    try destruct (String.eqb cl ""); unfold push;
    rewrite ?app_nil_r; reflexivity.
Qed.

Lemma fold_controlReducer_app controls acc :
  Forall (fun c => forall acc, controlReducer acc c = acc ++ document_entries c)
         controls ->
  fold_left controlReducer controls acc = acc ++ flat_map document_entries controls.
Proof.
  intros H. revert acc.
  induction H as [|c cs Hc _ IH]; intros acc; simpl.
  - now rewrite app_nil_r.
  - now rewrite Hc, IH, app_assoc.
Qed.

Lemma controlReducer_document control acc :
  controlReducer acc control = acc ++ document_entries control.
Proof.
  revert acc. induction control as [c IH] using CardControl_tree_ind.
  intros acc. rewrite controlReducer_unfold.
  destruct c as [t a i cl d o [children|]]; simpl in *.
  - rewrite fold_controlReducer_app by (apply IH; reflexivity).
    now rewrite app_assoc.
  - now rewrite app_nil_r.
Qed.

Lemma reduce_document controls acc :
  fold_left controlReducer controls acc = acc ++ flat_map document_entries controls.
Proof.
  apply fold_controlReducer_app, Forall_forall.
  intros c _ acc'. apply controlReducer_document.
Qed.

Lemma flat_map_flat_map {A B C : Type} (f : A -> list B) (g : B -> list C) l :
  flat_map g (flat_map f l) = flat_map (fun x => flat_map g (f x)) l.
Proof.
  induction l as [|x l IH]; simpl; [reflexivity|].
  now rewrite flat_map_app, IH.
Qed.

(** The entries are the own pairs of the controls, in document order. *)
Lemma document_entries_nodes control :
  document_entries control = flat_map own_entry (nodes control).
Proof.
  induction control as [c IH] using CardControl_tree_ind.
  destruct c as [t a i cl d o [children|]]; simpl in *.
  - f_equal. rewrite flat_map_flat_map.
    specialize (IH children eq_refl).
    induction IH as [|x l Hx _ IHl]; simpl; [reflexivity|].
    now rewrite Hx, IHl.
  - reflexivity.
Qed.

Lemma entries_nodes controls :
  fold_left controlReducer controls [] =
  flat_map own_entry (flat_map nodes controls).
Proof.
  rewrite reduce_document, flat_map_flat_map. simpl.
  induction controls as [|c cs IH]; simpl; [reflexivity|].
  now rewrite document_entries_nodes, IH.
Qed.

End Flattening.

Section DispatchTable.

Context {Subject Handler : Type}.
Implicit Types (control : CardControl Subject Handler)
  (controls : list (CardControl Subject Handler))
  (entries : list (string * Handler)) (k : string) (h : Handler).

Lemma fromEntries_snoc entries k h :
  fromEntries (entries ++ [(k, h)]) = <[k := h]> (fromEntries entries).
Proof. unfold fromEntries. now rewrite fold_left_app. Qed.

Lemma fromEntries_nil : fromEntries (@nil (string * Handler)) = ∅.
Proof. reflexivity. Qed.

(** Reading the table: the last entry of a key decides. *)
Lemma lookup_fromEntries_snoc entries k' k h :
  fromEntries (entries ++ [(k', h)]) !! k =
  if decide (k' = k) then Some h else fromEntries entries !! k.
Proof. rewrite fromEntries_snoc. apply lookup_insert. Qed.

Lemma lookup_fromEntries_None entries k :
  fromEntries entries !! k = None <-> ~ In k (map fst entries).
Proof.
  induction entries as [|[k' h'] entries IH] using rev_ind.
  - rewrite fromEntries_nil, lookup_empty. simpl. tauto.
  - rewrite lookup_fromEntries_snoc, map_app, in_app_iff. simpl.
    destruct (decide (k' = k)) as [->|Hne].
    + split; [discriminate | intros H; exfalso; apply H; auto].
    + rewrite IH. tauto.
Qed.

Lemma lookup_fromEntries_Some entries k h :
  fromEntries entries !! k = Some h -> In (k, h) entries.
Proof.
  induction entries as [|[k' h'] entries IH] using rev_ind.
  - rewrite fromEntries_nil, lookup_empty. discriminate.
  - rewrite lookup_fromEntries_snoc, in_app_iff.
    destruct (decide (k' = k)) as [->|Hne].
    + intros [= ->]. right. now left.
    + intros H. left. now apply IH.
Qed.

Lemma lookup_fromEntries_last entries1 entries2 k h :
  ~ In k (map fst entries2) ->
  fromEntries (entries1 ++ (k, h) :: entries2) !! k = Some h.
Proof.
  induction entries2 as [|[k' h'] entries2 IH] using rev_ind; intros Hk.
  - rewrite lookup_fromEntries_snoc. now rewrite decide_True.
  - rewrite map_app, in_app_iff in Hk. simpl in Hk.
    replace (entries1 ++ (k, h) :: entries2 ++ [(k', h')])
      with ((entries1 ++ (k, h) :: entries2) ++ [(k', h')])
      by now rewrite <- app_assoc.
    rewrite lookup_fromEntries_snoc.
    destruct (decide (k' = k)) as [->|Hne]; [exfalso; tauto|].
    apply IH. tauto.
Qed.

Lemma own_entry_inv control k h :
  In (k, h) (own_entry control) ->
  control_onclick control = Some h /\ control_class control = Some k /\ k <> "".
Proof.
  unfold own_entry.
  destruct (control_onclick control) as [o|], (control_class control) as [cl|];
    try (intros []).
  destruct (String.eqb_spec cl ""); [intros [] |].
  intros [[= -> ->]|[]]. auto.
Qed.

Lemma own_entry_leaf control h k :
  control_onclick control = Some h -> control_class control = Some k ->
  k <> "" -> own_entry control = [(k, h)].
Proof.
  unfold own_entry. intros -> -> Hk.
  destruct (String.eqb_spec k ""); [contradiction | reflexivity].
Qed.

(** Every binding of the table comes from a control of the tree that has
    this handler and this, non-empty, class. *)
Lemma controlFns_provenance controls k h :
  controlFns controls !! k = Some h ->
  exists control, In control (flat_map nodes controls) /\
    control_onclick control = Some h /\ control_class control = Some k /\
    k <> "".
Proof.
  unfold controlFns. intros H. apply lookup_fromEntries_Some in H.
  rewrite entries_nodes in H. apply in_flat_map in H as [c [Hc Hin]].
  exists c. split; [exact Hc | now apply own_entry_inv].
Qed.

End DispatchTable.

(** ** The control flattener *)

(** C1. Flattening is a left fold over the tree: the accumulator receives,
    for each control in document order, the pair (class, onclick) when the
    control has both an onclick and a non-empty class, and each [controls]
    sub-sequence is folded into the same accumulator, depth first, at any
    depth. Every control of the tree that has both is therefore found in the
    accumulator, under its own class in the table unless a later control
    takes the class. The tree
    [[{class:"a", onclick:h1}, {class:"group", controls:[{class:"b", onclick:h2}]}]]
    flattens to the two-entry table {a: h1, b: h2}. *)
Theorem controlFns_left_fold :
  (forall (Subject Handler : Type)
          (controls : list (CardControl Subject Handler)) acc,
      fold_left controlReducer controls acc =
      acc ++ flat_map document_entries controls) /\
  (forall (Subject Handler : Type)
          (controls : list (CardControl Subject Handler)),
      controlFns controls = fromEntries (flat_map document_entries controls) /\
      flat_map document_entries controls =
      flat_map own_entry (flat_map nodes controls)) /\
  (forall (Subject Handler : Type)
          (controls : list (CardControl Subject Handler)) control k h,
      In control (flat_map nodes controls) ->
      control_onclick control = Some h ->
      control_class control = Some k ->
      k <> "" ->
      In (k, h) (fold_left controlReducer controls []) /\
      is_Some (controlFns controls !! k)) /\
  (forall (Subject Handler : Type) (h1 h2 : Handler),
      let tree : list (CardControl Subject Handler) :=
        [leaf "a" h1; group "group" [leaf "b" h2]] in
      fold_left controlReducer tree [] = [("a", h1); ("b", h2)] /\
      controlFns tree = {[ "a" := h1; "b" := h2 ]} /\
      size (controlFns tree) = 2).
Proof.
  split; [|split; [|split]].
  - intros. apply reduce_document.
  - intros. unfold controlFns. rewrite reduce_document. split; [reflexivity|].
    rewrite <- entries_nodes. now rewrite reduce_document.
  - intros Subject Handler controls control k h Hin Ho Hc Hk.
    assert (Hentry : In (k, h) (fold_left controlReducer controls [])).
    { rewrite entries_nodes. apply in_flat_map. exists control.
      split; [exact Hin|]. rewrite (own_entry_leaf control h k) by assumption.
      now left. }
    split; [exact Hentry|].
    unfold controlFns.
    destruct (fromEntries (fold_left controlReducer controls []) !! k) eqn:E;
      [eauto|].
    apply lookup_fromEntries_None in E. exfalso. apply E.
    apply in_map_iff. now exists (k, h).
  - intros Subject Handler h1 h2 tree.
    assert (E : fold_left controlReducer tree [] = [("a", h1); ("b", h2)])
      by reflexivity.
    split; [exact E|].
    assert (T : controlFns tree = {[ "a" := h1; "b" := h2 ]}).
    { unfold controlFns. rewrite E. unfold fromEntries. simpl.
      rewrite insert_empty. now apply insert_insert_ne. }
    split; [exact T|]. rewrite T.
    rewrite map_size_insert_None by now rewrite lookup_singleton_ne.
    now rewrite map_size_singleton.
Qed.

(** The hypotheses of C1's third part hold for the "b" leaf inside the group
    of the specification's example. *)
Lemma controlFns_left_fold_witness :
  let tree : list (CardControl unit nat) :=
    [leaf "a" 1; group "group" [leaf "b" 2]] in
  In (leaf "b" 2) (flat_map nodes tree) /\
  In ("b", 2) (fold_left controlReducer tree []) /\
  is_Some (controlFns tree !! "b").
Proof.
  intros tree.
  assert (Hin : In (leaf "b" 2) (flat_map nodes tree))
    by (simpl; right; right; left; reflexivity).
  split; [exact Hin|].
  apply (proj1 (proj2 (proj2 controlFns_left_fold)) unit nat tree
           (leaf "b" 2) "b" 2 Hin eq_refl eq_refl).
  discriminate.
Defined.

(** C5. When two controls of the tree have handlers under the same class,
    the one met later in the traversal wins: the table binds the class to
    the handler of the last such control, because building the table
    overwrites on a duplicate key. Two leaves of class "dup" with handlers
    h1 then h2 give the table {dup: h2}. *)
Theorem later_duplicate_class_wins :
  (forall (Subject Handler : Type)
          (controls before between after : list (CardControl Subject Handler))
          c1 c2 k h1 h2,
      flat_map nodes controls = before ++ c1 :: between ++ c2 :: after ->
      control_class c1 = Some k -> control_onclick c1 = Some h1 ->
      control_class c2 = Some k -> control_onclick c2 = Some h2 ->
      k <> "" ->
      (forall c, In c after -> control_class c = Some k ->
                 control_onclick c = None) ->
      controlFns controls !! k = Some h2) /\
  (forall (Handler : Type) (entries : list (string * Handler)) k h1 h2,
      fromEntries (entries ++ [(k, h1); (k, h2)]) =
      <[k := h2]> (fromEntries entries)) /\
  (forall (Subject Handler : Type) (h1 h2 : Handler),
      controlFns [leaf (Subject := Subject) "dup" h1; leaf "dup" h2] =
      {[ "dup" := h2 ]}).
Proof.
  split; [|split].
  - intros Subject Handler controls before between after c1 c2 k h1 h2
      Hnodes Hc1 Ho1 Hc2 Ho2 Hk Hlast.
    unfold controlFns. rewrite entries_nodes, Hnodes.
    replace (before ++ c1 :: between ++ c2 :: after)
      with ((before ++ c1 :: between) ++ c2 :: after)
      by (rewrite <- app_assoc; reflexivity).
    rewrite flat_map_app. simpl.
    rewrite (own_entry_leaf c2 h2 k) by assumption. simpl.
    apply lookup_fromEntries_last.
    intros Hin. apply in_map_iff in Hin as [[k' h'] [Hfst Hin]].
    simpl in Hfst. subst k'.
    apply in_flat_map in Hin as [c [Hc Hown]].
    apply own_entry_inv in Hown as [Ho [Hcl _]].
    rewrite (Hlast c Hc Hcl) in Ho. discriminate.
  - intros Handler entries k h1 h2.
    change [(k, h1); (k, h2)] with ([(k, h1)] ++ [(k, h2)]).
    rewrite app_assoc, !fromEntries_snoc. apply insert_insert_eq.
  - intros Subject Handler h1 h2. unfold controlFns, fromEntries. simpl.
    now rewrite insert_insert_eq, insert_empty.
Qed.

(** C5 at a duplicate that sits one level down, after a leaf of the same
    class at the top. *)
Lemma later_duplicate_class_wins_witness :
  let first : CardControl unit nat := leaf "dup" 1 in
  let second : CardControl unit nat := leaf "dup" 2 in
  let wrapper : CardControl unit nat := group "wrap" [second] in
  flat_map nodes [first; wrapper] = [] ++ first :: [wrapper] ++ second :: [] /\
  controlFns [first; wrapper] !! "dup" = Some 2.
Proof.
  intros first second wrapper. split; [reflexivity|].
  apply (proj1 later_duplicate_class_wins unit nat [first; wrapper]
           [] [wrapper] [] first second "dup" 1 2);
    [reflexivity | reflexivity | reflexivity | reflexivity | reflexivity
    | discriminate | intros c []].
Defined.

(** C6. A leaf with an onclick whose class is absent or the empty string
    contributes nothing: the reducer returns the accumulator as it got it,
    so wherever the leaf sits in a tree the entries are those of the other
    controls, and a binding of the table always comes from a control with a
    non-empty class, never from this leaf. Nothing fails: the leaf is passed
    over. *)
Theorem classless_leaf_not_dispatched
  (Subject Handler : Type) (leaf0 : CardControl Subject Handler) :
  classless_leaf leaf0 ->
  (forall acc, controlReducer acc leaf0 = acc) /\
  (forall (controls before after : list (CardControl Subject Handler)),
      flat_map nodes controls = before ++ leaf0 :: after ->
      fold_left controlReducer controls [] =
      flat_map own_entry (before ++ after)) /\
  (forall before after : list (CardControl Subject Handler),
      controlFns (before ++ leaf0 :: after) = controlFns (before ++ after)) /\
  (forall (controls : list (CardControl Subject Handler)) k h,
      controlFns controls !! k = Some h ->
      exists control, In control (flat_map nodes controls) /\
        control <> leaf0 /\
        control_onclick control = Some h /\ control_class control = Some k) /\
  (forall controls : list (CardControl Subject Handler),
      controlFns controls !! "" = None).
Proof.
  intros (Ho & Hclass & Hleaf).
  assert (Hown : own_entry leaf0 = []).
  { unfold own_entry. destruct (control_onclick leaf0); [|reflexivity].
    destruct Hclass as [-> | ->]; reflexivity. }
  assert (Hstep : forall acc, controlReducer acc leaf0 = acc).
  { intros acc. rewrite controlReducer_unfold, Hleaf, Hown.
    apply app_nil_r. }
  split; [exact Hstep|]. split; [|split; [|split]].
  - intros controls before after Hnodes.
    rewrite entries_nodes, Hnodes, !flat_map_app. simpl.
    now rewrite Hown.
  - intros before after. unfold controlFns.
    rewrite !fold_left_app. simpl. now rewrite Hstep.
  - intros controls k h Hk.
    destruct (controlFns_provenance controls k h Hk)
      as (c & Hin & Hco & Hcc & Hne).
    exists c. repeat split; try assumption.
    intros ->. destruct Hclass as [E | E]; rewrite E in Hcc;
      [discriminate | injection Hcc as <-; now apply Hne].
  - intros controls.
    destruct (controlFns controls !! "") as [h|] eqn:E; [|reflexivity].
    destruct (controlFns_provenance controls "" h E) as (c & _ & _ & _ & Hne).
    now contradiction Hne.
Qed.

(** C6 at the leaf [{onclick: 7}], inside a group and at the top. *)
Lemma classless_leaf_not_dispatched_witness :
  let bare : CardControl unit nat :=
    mkControl absent absent absent None absent (Some 7) None in
  classless_leaf bare /\
  controlFns [leaf "a" 1; group "g" [bare]; leaf "b" 2] =
  controlFns (Subject := unit) [leaf "a" 1; group "g" []; leaf "b" 2] /\
  controlFns [leaf "a" 1; bare] = controlFns (Subject := unit) [leaf "a" 1].
Proof.
  intros bare.
  assert (H : classless_leaf bare).
  { split; [eexists; reflexivity|]. split; [left|]; reflexivity. }
  split; [exact H|].
  destruct (classless_leaf_not_dispatched unit nat bare H)
    as (Hstep & Hnodes & Hremove & _).
  split.
  - unfold controlFns.
    rewrite (Hnodes [leaf "a" 1; group "g" [bare]; leaf "b" 2]
               [leaf "a" 1; group "g" [bare]] [leaf "b" 2] eq_refl).
    reflexivity.
  - apply (Hremove [leaf "a" 1] []).
Defined.

(** C7, as the specification states it, fails: the reducer tests [onclick]
    and [class] before it looks at [controls], so a group that has both is
    entered in the table like a leaf. *)
Lemma group_with_onclick_dispatched :
  let clickable : CardControl unit nat :=
    mkControl absent absent absent (Some "card-faces") absent (Some 7)
              (Some [leaf "next-face" 1]) in
  is_group clickable /\
  controlReducer [] clickable = [("card-faces", 7); ("next-face", 1)] /\
  controlFns [clickable] !! "card-faces" = Some 7 /\
  ~ (forall (control : CardControl unit nat) children acc,
        control_controls control = Some children ->
        controlReducer acc control = fold_left controlReducer children acc).
Proof.
  intros clickable.
  assert (E : controlReducer [] clickable =
              [("card-faces", 7); ("next-face", 1)]) by reflexivity.
  split; [eexists; reflexivity|]. split; [exact E|]. split.
  - unfold controlFns.
    change (fold_left controlReducer [clickable] [])
      with (controlReducer [] clickable).
    rewrite E. unfold fromEntries. simpl.
    rewrite lookup_insert_ne by discriminate. apply lookup_insert_eq.
  - intros claim.
    specialize (claim clickable [leaf "next-face" 1] [] eq_refl).
    rewrite E in claim. discriminate claim.
Qed.

(** C7, amended. A group without an onclick, or without a non-empty class,
    adds no entry of its own: the reducer goes straight on to its children.
    A group with both adds its pair (class, onclick) and then goes on to its
    children. *)
Theorem group_without_handler_not_dispatched
  (Subject Handler : Type) (control : CardControl Subject Handler)
  (children : list (CardControl Subject Handler)) :
  control_controls control = Some children ->
  (control_onclick control = None \/ control_class control = None \/
   control_class control = Some "" ->
   forall acc,
     controlReducer acc control = fold_left controlReducer children acc) /\
  (forall h k,
     control_onclick control = Some h -> control_class control = Some k ->
     k <> "" ->
     forall acc,
       controlReducer acc control =
       fold_left controlReducer children (acc ++ [(k, h)])).
Proof.
  intros Hgroup. split.
  - intros Hno acc. rewrite controlReducer_unfold, Hgroup.
    replace (own_entry control) with (@nil (string * Handler));
      [now rewrite app_nil_r|].
    unfold own_entry.
    destruct Hno as [-> | [-> | ->]];
      [reflexivity | now destruct (control_onclick control)
      | now destruct (control_onclick control)].
  - intros h k Ho Hc Hk acc.
    now rewrite controlReducer_unfold, Hgroup, (own_entry_leaf control h k).
Qed.

(** The amended C7 at the library's face-navigation group. *)
Lemma group_without_handler_not_dispatched_witness :
  control_controls Controls.faces =
    Some [Controls.faceNext; Controls.facePrevious] /\
  control_onclick Controls.faces = None /\
  controlReducer [] Controls.faces =
  fold_left controlReducer [Controls.faceNext; Controls.facePrevious] [].
Proof.
  split; [reflexivity|]. split; [reflexivity|].
  apply (proj1 (group_without_handler_not_dispatched Card clickCallback
                  Controls.faces [Controls.faceNext; Controls.facePrevious]
                  eq_refl)).
  left. reflexivity.
Defined.

(** ** The attribute resolver *)

Section Resolver.

Context {Subject : Type}.
Implicit Types (card : Subject) (a : field Subject).

Lemma functionOrString_pure a defaultValue card :
  pure_field a -> functionOrString a defaultValue card =
                  (resolved a defaultValue card, card).
Proof.
  unfold resolved. destruct a as [v|f]; simpl.
  - intros _. now destruct v.
  - intros H. specialize (H card).
    destruct (f card) as [v c]. simpl in *. now subst c.
Qed.

Lemma resolved_absent defaultValue card :
  resolved absent defaultValue card = defaultValue.
Proof. reflexivity. Qed.

End Resolver.

(** C2. For every subject S: a plain value v resolves to v, a callable f
    resolves to f(S), and an absent or undefined field resolves to the
    default it was given. *)
Theorem functionOrString_resolves
  (Subject : Type) (S : Subject) (defaultValue : value) :
  (forall v, v <> VUndefined ->
             functionOrString (Lit v) defaultValue S = (v, S)) /\
  (forall f, functionOrString (Fn f) defaultValue S = f S) /\
  (forall g, functionOrString (reads g) defaultValue S = (g S, S)) /\
  functionOrString absent defaultValue S = (defaultValue, S).
Proof.
  repeat split.
  intros v Hv. destruct v; try reflexivity. now contradiction Hv.
Qed.

(** C2 at the literal tooltip of the suit badge. *)
Lemma functionOrString_resolves_witness :
  VStr "CARD.Suit" <> VUndefined /\
  functionOrString (Subject := Named) (Lit (VStr "CARD.Suit")) (VStr "")
    (mkNamed (VStr "Ace")) = (VStr "CARD.Suit", mkNamed (VStr "Ace")).
Proof.
  assert (H : VStr "CARD.Suit" <> VUndefined) by discriminate.
  split; [exact H|].
  exact (proj1 (functionOrString_resolves Named (mkNamed (VStr "Ace"))
                  (VStr "")) (VStr "CARD.Suit") H).
Defined.

(** ** The descriptor applier *)

Section Applier.

Context {Subject Handler : Type}.
Implicit Types (card : Subject) (control : CardControl Subject Handler)
  (controls : list (CardControl Subject Handler))
  (badge : CardBadge Subject) (badges : list (CardBadge Subject)).

(** [applyCardControl] with the children handed to [applyCardControls], as
    the source writes it. *)
Lemma applyCardControl_unfold card control :
  applyCardControl card control =
  let '(tooltip, c1) := functionOrString (control_tooltip control) (VStr "") card in
  let '(aria, c2) := functionOrString (control_aria control) (VStr "") c1 in
  let '(icon, c3) := functionOrString (control_icon control) (VStr "") c2 in
  let '(disabled, c4) :=
    functionOrString (control_disabled control) (VBool false) c3 in
  let '(children, c5) :=
    match control_controls control with
    | Some children => applyCardControls c4 children
    | None => ([], c4)
    end in
  (VObj [("tooltip", tooltip); ("aria", aria); ("icon", icon);
         ("class", VStr (class_or_empty (control_class control)));
         ("disabled", disabled); ("controls", VArr children)], c5).
Proof. destruct control; reflexivity. Qed.

Lemma applyCardControls_length controls card :
  length (fst (applyCardControls card controls)) = length controls.
Proof.
  revert card. induction controls as [|c cs IH]; intros card; simpl.
  - reflexivity.
  - destruct (applyCardControl card c) as [r c1].
    specialize (IH c1). destruct (applyCardControls c1 cs) as [rs c2].
    simpl in *. now rewrite IH.
Qed.

Lemma applyCardBadges_length badges card :
  length (fst (applyCardBadges card badges)) = length badges.
Proof.
  revert card. induction badges as [|b bs IH]; intros card; simpl.
  - reflexivity.
  - destruct (applyCardBadge card b) as [r c1].
    specialize (IH c1). destruct (applyCardBadges c1 bs) as [rs c2].
    simpl in *. now rewrite IH.
Qed.

(** With pure fields the card comes back unchanged from a list of
    controls, provided it does from each of them. *)
Lemma applyCardControls_keeps controls :
  Forall (fun c => forall card, snd (applyCardControl card c) = card) controls ->
  forall card, snd (applyCardControls card controls) = card.
Proof.
  induction 1 as [|c cs Hc _ IH]; intros card; simpl; [reflexivity|].
  specialize (Hc card). destruct (applyCardControl card c) as [r c1].
  simpl in Hc. subst c1.
  specialize (IH card). destruct (applyCardControls card cs) as [rs c2].
  exact IH.
Qed.

Lemma applyCardControl_keeps control :
  Forall pure_node (nodes control) ->
  forall card, snd (applyCardControl card control) = card.
Proof.
  induction control as [c IH] using CardControl_tree_ind.
  intros Hpure card. rewrite applyCardControl_unfold.
  replace (nodes c) with
    (c :: match control_controls c with
          | Some children => flat_map nodes children
          | None => []
          end) in Hpure by (destruct c; reflexivity).
  apply Forall_cons in Hpure as [(Ht & Ha & Hi & Hd) Hrest].
  rewrite (functionOrString_pure _ _ _ Ht), (functionOrString_pure _ _ _ Ha),
    (functionOrString_pure _ _ _ Hi), (functionOrString_pure _ _ _ Hd).
  destruct (control_controls c) as [children|] eqn:E; [|reflexivity].
  assert (Hkeep : forall card, snd (applyCardControls card children) = card).
  { apply applyCardControls_keeps.
    specialize (IH children eq_refl).
    rewrite Forall_flat_map in Hrest.
    rewrite Forall_forall in IH, Hrest |- *.
    intros x Hx. apply IH; [exact Hx | now apply Hrest]. }
  specialize (Hkeep card). destruct (applyCardControls card children).
  exact Hkeep.
Qed.

Lemma pure_controls_keep controls card :
  pure_controls controls -> snd (applyCardControls card controls) = card.
Proof.
  unfold pure_controls. rewrite Forall_flat_map. intros H.
  apply applyCardControls_keeps. rewrite Forall_forall in H |- *.
  intros c Hc. now apply applyCardControl_keeps, H.
Qed.

Lemma applyCardBadge_pure badge card :
  pure_badge badge ->
  applyCardBadge card badge =
  (VObj [("tooltip", resolved (badge_tooltip badge) (VStr "") card);
         ("text", resolved (badge_text badge) (VStr "") card);
         ("hide", resolved (badge_hide badge) (VBool false) card);
         ("class", VStr (class_or_empty (badge_class badge)))], card).
Proof.
  intros (Ht & Hx & Hh). unfold applyCardBadge.
  now rewrite (functionOrString_pure _ _ _ Ht),
    (functionOrString_pure _ _ _ Hx), (functionOrString_pure _ _ _ Hh).
Qed.

End Applier.

(** C3. For every subject and every control descriptor, [applyCardControl]
    builds a record with exactly the fields tooltip, aria, icon, class,
    disabled and controls: tooltip, aria and icon resolved with default "",
    disabled resolved with default false, class the literal class or "",
    controls the children applied in turn, or the empty sequence when the
    descriptor has no controls. The record has no onclick field. *)
Theorem applyCardControl_record
  (Subject Handler : Type) (card : Subject)
  (control : CardControl Subject Handler) :
  let '(tooltip, c1) := functionOrString (control_tooltip control) (VStr "") card in
  let '(aria, c2) := functionOrString (control_aria control) (VStr "") c1 in
  let '(icon, c3) := functionOrString (control_icon control) (VStr "") c2 in
  let '(disabled, c4) :=
    functionOrString (control_disabled control) (VBool false) c3 in
  let record := fst (applyCardControl card control) in
  keys record = ["tooltip"; "aria"; "icon"; "class"; "disabled"; "controls"] /\
  prop record "onclick" = None /\
  prop record "tooltip" = Some tooltip /\
  prop record "aria" = Some aria /\
  prop record "icon" = Some icon /\
  prop record "disabled" = Some disabled /\
  (control_tooltip control = absent -> tooltip = VStr "") /\
  (control_aria control = absent -> aria = VStr "") /\
  (control_icon control = absent -> icon = VStr "") /\
  (control_disabled control = absent -> disabled = VBool false) /\
  (forall class, control_class control = Some class ->
                 prop record "class" = Some (VStr class)) /\
  (control_class control = None -> prop record "class" = Some (VStr "")) /\
  (forall children, control_controls control = Some children ->
     prop record "controls" = Some (VArr (fst (applyCardControls c4 children))) /\
     length (fst (applyCardControls c4 children)) = length children) /\
  (control_controls control = None -> prop record "controls" = Some (VArr [])).
Proof.
  rewrite applyCardControl_unfold.
  destruct (functionOrString (control_tooltip control) (VStr "") card)
    as [tooltip c1] eqn:Et.
  destruct (functionOrString (control_aria control) (VStr "") c1)
    as [aria c2] eqn:Ea.
  destruct (functionOrString (control_icon control) (VStr "") c2)
    as [icon c3] eqn:Ei.
  destruct (functionOrString (control_disabled control) (VBool false) c3)
    as [disabled c4] eqn:Ed.
  assert (Hrecord : forall children k,
    prop (VObj [("tooltip", tooltip); ("aria", aria); ("icon", icon);
                ("class", VStr (class_or_empty (control_class control)));
                ("disabled", disabled); ("controls", VArr children)]) k =
    if String.eqb k "tooltip" then Some tooltip
    else if String.eqb k "aria" then Some aria
    else if String.eqb k "icon" then Some icon
    else if String.eqb k "class"
         then Some (VStr (class_or_empty (control_class control)))
    else if String.eqb k "disabled" then Some disabled
    else if String.eqb k "controls" then Some (VArr children)
    else None).
  { intros children k. simpl.
    repeat (destruct (String.eqb k _); [reflexivity|]). reflexivity. }
  destruct (match control_controls control with
            | Some children => applyCardControls c4 children
            | None => ([], c4)
            end) as [children c5] eqn:Ec.
  cbn [fst]. rewrite !(Hrecord children). cbn [String.eqb Ascii.eqb Bool.eqb].
  repeat split.
  - intros E. rewrite E in Et. now injection Et as <- _.
  - intros E. rewrite E in Ea. now injection Ea as <- _.
  - intros E. rewrite E in Ei. now injection Ei as <- _.
  - intros E. rewrite E in Ed. now injection Ed as <- _.
  - intros class E. now rewrite E.
  - intros E. now rewrite E.
  - rewrite H in Ec. now rewrite Ec.
  - apply applyCardControls_length.
  - intros E. rewrite E in Ec. now injection Ec as <- _.
Qed.

(** C3 at the face-navigation group of the library. *)
Lemma applyCardControl_record_witness :
  let record := fst (applyCardControl last_face_card Controls.faces) in
  control_controls Controls.faces =
    Some [Controls.faceNext; Controls.facePrevious] /\
  control_icon Controls.faces = absent /\
  prop record "icon" = Some (VStr "") /\
  prop record "class" = Some (VStr "card-faces") /\
  prop record "onclick" = None /\
  prop record "controls" =
    Some (VArr (fst (applyCardControls last_face_card
                       [Controls.faceNext; Controls.facePrevious]))).
Proof.
  intros record. subst record.
  pose proof (applyCardControl_record Card clickCallback last_face_card
                Controls.faces) as H.
  cbn [functionOrString Controls.faces control_tooltip control_aria
       control_icon control_disabled control_class control_controls absent]
    in H.
  destruct H as (_ & Honclick & _ & _ & Hicon & _ & _ & _ & Hdefault & _ &
                 Hclass & _ & Hchildren & _).
  split; [reflexivity|]. split; [reflexivity|].
  split; [rewrite Hicon; f_equal; now apply Hdefault|].
  split; [now apply Hclass|]. split; [exact Honclick|].
  now apply Hchildren.
Defined.

(** C4. For every subject and every list of badge descriptors,
    [applyCardBadges] gives one record per descriptor, in order, with exactly
    the fields tooltip, text, hide and class: tooltip and text resolved,
    hide resolved with default false, class the literal class or "". The
    descriptor [{tooltip:"T", text: c => c.name, class:"x"}] on the subject
    [{name:"Ace"}] gives [{tooltip:"T", text:"Ace", hide:false, class:"x"}]. *)
Theorem applyCardBadges_records :
  (forall (Subject : Type) (card : Subject) (badges : list (CardBadge Subject)),
      length (fst (applyCardBadges card badges)) = length badges /\
      Forall (fun record => keys record = ["tooltip"; "text"; "hide"; "class"])
             (fst (applyCardBadges card badges)) /\
      (Forall pure_badge badges ->
       applyCardBadges card badges =
       (map (fun badge =>
               VObj [("tooltip", resolved (badge_tooltip badge) (VStr "") card);
                     ("text", resolved (badge_text badge) (VStr "") card);
                     ("hide", resolved (badge_hide badge) (VBool false) card);
                     ("class", VStr (class_or_empty (badge_class badge)))])
            badges, card))) /\
  (forall (Subject : Type) (card : Subject) (badge : CardBadge Subject),
      (badge_hide badge = absent ->
       prop (fst (applyCardBadge card badge)) "hide" = Some (VBool false)) /\
      (badge_class badge = None ->
       prop (fst (applyCardBadge card badge)) "class" = Some (VStr "")) /\
      (forall class, badge_class badge = Some class ->
       prop (fst (applyCardBadge card badge)) "class" = Some (VStr class))) /\
  applyCardBadges (mkNamed (VStr "Ace")) [name_badge] =
  ([VObj [("tooltip", VStr "T"); ("text", VStr "Ace");
          ("hide", VBool false); ("class", VStr "x")]],
   mkNamed (VStr "Ace")).
Proof.
  split; [|split; [|reflexivity]].
  - intros Subject card badges. split; [apply applyCardBadges_length|]. split.
    + revert card. induction badges as [|b bs IH]; intros card; simpl.
      * constructor.
      * unfold applyCardBadge at 1.
        destruct (functionOrString (badge_tooltip b) (VStr "") card) as [t c1].
        destruct (functionOrString (badge_text b) (VStr "") c1) as [x c2].
        destruct (functionOrString (badge_hide b) (VBool false) c2) as [h c3].
        specialize (IH c3). destruct (applyCardBadges c3 bs) as [rs c4].
        constructor; [reflexivity | exact IH].
    + induction 1 as [|b bs Hb _ IH]; simpl; [reflexivity|].
      now rewrite (applyCardBadge_pure b card Hb), IH.
  - intros Subject card badge. unfold applyCardBadge.
    destruct (functionOrString (badge_tooltip badge) (VStr "") card) as [t c1].
    destruct (functionOrString (badge_text badge) (VStr "") c1) as [x c2].
    destruct (functionOrString (badge_hide badge) (VBool false) c2)
      as [h c3] eqn:Eh.
    repeat split.
    + intros E. rewrite E in Eh. simpl in *. now injection Eh as <- _.
    + intros E. simpl. now rewrite E.
    + intros class E. simpl. now rewrite E.
Qed.

(** C4 at the three default badges, whose fields only read the card. *)
Lemma applyCardBadges_records_witness :
  Forall pure_badge Badges.default /\
  fst (applyCardBadges last_face_card Badges.default) =
  [VObj [("tooltip", VStr "CARD.Suit"); ("text", VStr "spades");
         ("hide", VBool false); ("class", VStr "card-suit")];
   VObj [("tooltip", VStr "CARD.Value"); ("text", VNum 1);
         ("hide", VBool false); ("class", VStr "card-value")];
   VObj [("tooltip", VStr "CARD.Type"); ("text", VStr "base");
         ("hide", VBool false); ("class", VStr "card-type")]].
Proof.
  assert (H : Forall pure_badge Badges.default).
  { repeat constructor. }
  split; [exact H|].
  rewrite (proj2 (proj2 (proj1 applyCardBadges_records Card last_face_card
                           Badges.default)) H).
  reflexivity.
Defined.

(** ** The built-in descriptors *)

(** C8. The default control list, the face-navigation group with its
    "next-face" and "prev-face" leaves, applied to a card with
    hasNextFace = false and hasPreviousFace = true gives a tree in which
    the "next-face" leaf has disabled = true and the "prev-face" leaf has
    disabled = false; the card is left as it was. The mixin's list and the
    library's give the same tree. *)
Theorem default_controls_on_last_face (card : Card) :
  hasNextFace card = false ->
  hasPreviousFace card = true ->
  let tree :=
    [VObj [("tooltip", VStr ""); ("aria", VStr ""); ("icon", VStr "");
           ("class", VStr "card-faces"); ("disabled", VBool false);
           ("controls", VArr
              [VObj [("tooltip", VStr "CARD.FaceNext"); ("aria", VStr "");
                     ("icon", VStr "fas fa-caret-up");
                     ("class", VStr "next-face"); ("disabled", VBool true);
                     ("controls", VArr [])];
               VObj [("tooltip", VStr "CARD.FacePrevious"); ("aria", VStr "");
                     ("icon", VStr "fas fa-caret-down");
                     ("class", VStr "prev-face"); ("disabled", VBool false);
                     ("controls", VArr [])]])]] in
  applyCardControls card MonarchApplicationMixin.controls = (tree, card) /\
  applyCardControls card Controls.default = (tree, card) /\
  fst (applyCardControl card Controls.faceNext) =
    VObj [("tooltip", VStr "CARD.FaceNext"); ("aria", VStr "");
          ("icon", VStr "fas fa-caret-up"); ("class", VStr "next-face");
          ("disabled", VBool true); ("controls", VArr [])].
Proof.
  intros Hnext Hprev. simpl. rewrite Hnext, Hprev. simpl.
  repeat split.
Qed.

(** C8 at a card on its last face. *)
Lemma default_controls_on_last_face_witness :
  hasNextFace last_face_card = false /\
  hasPreviousFace last_face_card = true /\
  exists next prev,
    fst (applyCardControls last_face_card MonarchApplicationMixin.controls) =
    [VObj [("tooltip", VStr ""); ("aria", VStr ""); ("icon", VStr "");
           ("class", VStr "card-faces"); ("disabled", VBool false);
           ("controls", VArr [next; prev])]] /\
    prop next "class" = Some (VStr "next-face") /\
    prop next "disabled" = Some (VBool true) /\
    prop prev "class" = Some (VStr "prev-face") /\
    prop prev "disabled" = Some (VBool false).
Proof.
  split; [reflexivity|]. split; [reflexivity|].
  destruct (default_controls_on_last_face last_face_card eq_refl eq_refl)
    as (Hmixin & _).
  rewrite Hmixin. simpl. eexists. eexists.
  split; [reflexivity|]. repeat split.
Defined.

(** C9. When the computed fields of a control list are pure, applying the
    list to a subject twice in a row gives equal results both times, and
    the subject is after each call what it was before the first. *)
Theorem applyCardControls_repeatable
  (Subject Handler : Type) (card : Subject)
  (controls : list (CardControl Subject Handler)) :
  pure_controls controls ->
  let first := applyCardControls card controls in
  let second := applyCardControls (snd first) controls in
  fst second = fst first /\ snd first = card /\ snd second = card.
Proof.
  intros Hpure first second.
  assert (H1 : snd first = card) by now apply pure_controls_keep.
  assert (H2 : snd second = card).
  { unfold second. rewrite H1. now apply pure_controls_keep. }
  split; [|split; assumption].
  unfold second. now rewrite H1.
Qed.

(** C9 at the default controls, whose computed fields only read the card. *)
Lemma applyCardControls_repeatable_witness :
  pure_controls Controls.default /\
  let first := applyCardControls last_face_card Controls.default in
  let second := applyCardControls (snd first) Controls.default in
  fst second = fst first /\ snd first = last_face_card /\
  snd second = last_face_card.
Proof.
  assert (H : pure_controls Controls.default).
  { unfold pure_controls. simpl. repeat constructor. }
  split; [exact H|].
  exact (applyCardControls_repeatable Card clickCallback last_face_card
           Controls.default H).
Defined.

(** Without purity the two calls can differ: a tooltip that counts its
    calls is not pure, and its control resolves differently the second
    time. *)
Example counting_control_not_repeatable :
  ~ pure_controls [counting_control] /\
  let first := applyCardControls 0 [counting_control] in
  let second := applyCardControls (snd first) [counting_control] in
  fst second <> fst first /\ snd first = 1.
Proof.
  split.
  - unfold pure_controls. simpl. intros H.
    apply Forall_cons in H as [(Ht & _) _]. specialize (Ht 0). discriminate Ht.
  - simpl. split; [discriminate | reflexivity].
Qed.

(** C10. The default getters of the mixin repeat the descriptor library:
    its controls are [Controls.default] and its badges [Badges.default],
    suit, value and type in that order, field by field, computed fields and
    handlers included; so both copies resolve to the same records on every
    card and flatten to the same dispatch table. *)
Theorem mixin_defaults_are_library_defaults :
  MonarchApplicationMixin.controls = Controls.default /\
  MonarchApplicationMixin.badges = Badges.default /\
  Badges.default = [Badges.suit; Badges.value; Badges.type] /\
  (forall card : Card,
      applyCardControls card MonarchApplicationMixin.controls =
      applyCardControls card Controls.default /\
      applyCardBadges card MonarchApplicationMixin.badges =
      applyCardBadges card Badges.default) /\
  controlFns MonarchApplicationMixin.controls = controlFns Controls.default /\
  map fst (fold_left controlReducer MonarchApplicationMixin.controls []) =
  ["next-face"; "prev-face"].
Proof.
  assert (Hc : MonarchApplicationMixin.controls = Controls.default)
    by reflexivity.
  assert (Hb : MonarchApplicationMixin.badges = Badges.default)
    by reflexivity.
  split; [exact Hc|]. split; [exact Hb|]. split; [reflexivity|].
  split; [|split].
  - intros card. now rewrite Hc, Hb.
  - now rewrite Hc.
  - reflexivity.
Qed.

(** ** Further properties: the image url *)

Lemma startsWith_empty (s : string) : startsWith s "" = true.
Proof. now destruct s. Qed.

Lemma startsWith_slash (s : string) : startsWith ("/" +:+ s) "/" = true.
Proof.
  unfold startsWith. simpl. apply startsWith_empty.
Qed.

(** X1. [_getCssImageUrl] stores [url('path')] where [path] is the image
    path made absolute: the path always starts with "/" or with "http"; an
    image that already does is taken as it is, any other gets exactly one
    "/" in front (the empty image gives [url('/')]); running the rule on a
    path it produced adds nothing more. The image itself is left alone. *)
Theorem getCssImageUrl_absolute (card : CardImage) :
  let path := image_prefix (img card) +:+ img card in
  cssImage (_getCssImageUrl card) = Some ("url('" +:+ path +:+ "')") /\
  img (_getCssImageUrl card) = img card /\
  (startsWith path "/" = true \/ startsWith path "http" = true) /\
  (startsWith (img card) "/" = true \/ startsWith (img card) "http" = true ->
   path = img card) /\
  (startsWith (img card) "/" = false ->
   startsWith (img card) "http" = false ->
   path = "/" +:+ img card) /\
  (img card = "" -> cssImage (_getCssImageUrl card) = Some "url('/')") /\
  image_prefix path = "".
Proof.
  intros path.
  assert (Habs : startsWith path "/" = true \/ startsWith path "http" = true).
  { unfold path, image_prefix.
    destruct (startsWith (img card) "/") eqn:E1; [now left|].
    destruct (startsWith (img card) "http") eqn:E2; [now right|].
    left. apply startsWith_slash. }
  assert (Hcss : cssImage (_getCssImageUrl card) =
                 Some ("url('" +:+ path +:+ "')")).
  { unfold _getCssImageUrl, path, image_prefix. simpl.
    now destruct (startsWith (img card) "/" || startsWith (img card) "http"). }
  split; [exact Hcss|]. split; [reflexivity|]. split; [exact Habs|].
  split; [|split; [|split]].
  - intros H. unfold path, image_prefix.
    destruct H as [-> | ->]; [reflexivity|].
    now rewrite orb_true_r.
  - intros H1 H2. unfold path, image_prefix. now rewrite H1, H2.
  - intros E. unfold _getCssImageUrl. now rewrite E.
  - unfold image_prefix at 1.
    destruct Habs as [-> | ->]; [reflexivity | now rewrite orb_true_r].
Qed.

(** X1 at a relative path and at a web address. *)
Lemma getCssImageUrl_absolute_witness :
  startsWith "cards/ace.png" "/" = false /\
  startsWith "cards/ace.png" "http" = false /\
  cssImage (_getCssImageUrl (mkCardImage "cards/ace.png" None)) =
    Some "url('/cards/ace.png')" /\
  cssImage (_getCssImageUrl (mkCardImage "https://x.org/a.png" None)) =
    Some "url('https://x.org/a.png')".
Proof.
  split; [reflexivity|]. split; [reflexivity|].
  destruct (getCssImageUrl_absolute (mkCardImage "cards/ace.png" None))
    as (Hcss & _ & _ & _ & Hrel & _).
  destruct (getCssImageUrl_absolute (mkCardImage "https://x.org/a.png" None))
    as (Hcss' & _ & _ & Habs & _).
  split.
  - rewrite Hcss, (Hrel eq_refl eq_refl). reflexivity.
  - rewrite Hcss', (Habs (or_intror eq_refl)). reflexivity.
Defined.

(** ** Further properties: the dispatch table *)

Section TableAlgebra.

Context {Subject Handler : Type}.
Implicit Types (control : CardControl Subject Handler)
  (controls : list (CardControl Subject Handler))
  (entries : list (string * Handler)) (k : string) (h : Handler).

Lemma fromEntries_app entries1 entries2 :
  fromEntries (entries1 ++ entries2) =
  fromEntries entries2 ∪ fromEntries entries1.
Proof.
  induction entries2 as [|[k h] entries2 IH] using rev_ind.
  - rewrite app_nil_r, fromEntries_nil. now rewrite (left_id ∅ (∪)).
  - rewrite app_assoc, !fromEntries_snoc, IH. now rewrite insert_union_l.
Qed.

Lemma entries_app controls1 controls2 :
  fold_left controlReducer (controls1 ++ controls2) [] =
  fold_left controlReducer controls1 [] ++
  fold_left controlReducer controls2 [].
Proof. rewrite fold_left_app, !reduce_document. reflexivity. Qed.

Lemma fromEntries_NoDup entries :
  NoDup (map fst entries) ->
  size (fromEntries entries) = length entries /\
  forall k h, In (k, h) entries -> fromEntries entries !! k = Some h.
Proof.
  induction entries as [|[k' h'] entries IH] using rev_ind; intros Hnd.
  - split; [reflexivity | intros k h []].
  - rewrite map_app in Hnd. simpl in Hnd.
    apply NoDup_app in Hnd as (Hnd & Hfresh & _).
    destruct (IH Hnd) as [Hsize Hfind].
    assert (Hnew : fromEntries entries !! k' = None).
    { apply lookup_fromEntries_None. intros Hin.
      apply (Hfresh k'); [now apply list_elem_of_In | now left]. }
    rewrite fromEntries_snoc. split.
    + rewrite map_size_insert_None by exact Hnew.
      rewrite length_app, Hsize. simpl. lia.
    + intros k h Hin. apply in_app_iff in Hin as [Hin | [[= -> ->] | []]].
      * rewrite lookup_insert_ne; [now apply Hfind|].
        intros ->. rewrite (Hfind k h Hin) in Hnew. discriminate.
      * apply lookup_insert_eq.
Qed.

End TableAlgebra.

(** X2. The table of two control lists put one after the other is the
    table of the second laid over the table of the first: classes of the
    second list take their handlers from it, all other classes keep the
    handler the first list gives them. Appending controls can add and
    replace bindings but never removes one. *)
Theorem controlFns_app (Subject Handler : Type)
  (controls1 controls2 : list (CardControl Subject Handler)) :
  controlFns (controls1 ++ controls2) =
  controlFns controls2 ∪ controlFns controls1 /\
  (forall k h, controlFns controls2 !! k = Some h ->
               controlFns (controls1 ++ controls2) !! k = Some h) /\
  (forall k, controlFns controls2 !! k = None ->
             controlFns (controls1 ++ controls2) !! k =
             controlFns controls1 !! k) /\
  dom (controlFns controls1) ⊆ dom (controlFns (controls1 ++ controls2)).
Proof.
  assert (E : controlFns (controls1 ++ controls2) =
              controlFns controls2 ∪ controlFns controls1).
  { unfold controlFns. now rewrite entries_app, fromEntries_app. }
  split; [exact E|]. rewrite E. split; [|split].
  - intros k h Hk. now apply lookup_union_Some_l.
  - intros k Hk. now apply lookup_union_r.
  - rewrite dom_union. set_solver.
Qed.

(** X2 where a second list takes over the class "dup" of the first. *)
Lemma controlFns_app_witness :
  controlFns (Subject := unit) [leaf "dup" 2] !! "dup" = Some 2 /\
  controlFns (Subject := unit) ([leaf "dup" 1; leaf "a" 3] ++ [leaf "dup" 2])
    !! "dup" = Some 2.
Proof.
  assert (H : controlFns (Subject := unit) [leaf "dup" 2] !! "dup" = Some 2).
  { unfold controlFns, fromEntries. simpl. apply lookup_insert_eq. }
  split; [exact H|].
  exact (proj1 (proj2 (controlFns_app unit nat [leaf "dup" 1; leaf "a" 3]
                         [leaf "dup" 2])) "dup" 2 H).
Defined.

(** X3. The keys of the dispatch table are exactly the non-empty classes of
    the controls of the tree that have an onclick: a class is bound if and
    only if some control, at any depth, carries it together with a
    handler. *)
Theorem controlFns_keys (Subject Handler : Type)
  (controls : list (CardControl Subject Handler)) (k : string) :
  k ∈ dom (controlFns controls) <->
  exists control h, In control (flat_map nodes controls) /\
                    clickable control k h.
Proof.
  rewrite elem_of_dom. split.
  - intros [h Hk]. destruct (controlFns_provenance controls k h Hk)
      as (c & Hin & Ho & Hc & Hne).
    exists c, h. repeat split; assumption.
  - intros (c & h & Hin & Ho & Hc & Hne).
    unfold controlFns.
    destruct (fromEntries (fold_left controlReducer controls []) !! k) eqn:E;
      [eauto|].
    apply lookup_fromEntries_None in E. exfalso. apply E.
    apply in_map_iff. exists (k, h). split; [reflexivity|].
    rewrite entries_nodes. apply in_flat_map. exists c.
    split; [exact Hin|]. rewrite (own_entry_leaf c h k) by assumption.
    now left.
Qed.

(** X4. When no two controls with a handler share a class, nothing is
    lost in flattening: every control that has an onclick and a non-empty
    class is dispatched to its own handler, at any depth, and the table has
    as many bindings as the tree has such controls. *)
Theorem controlFns_unique_classes (Subject Handler : Type)
  (controls : list (CardControl Subject Handler)) :
  NoDup (map fst (fold_left controlReducer controls [])) ->
  (forall control k h,
      In control (flat_map nodes controls) -> clickable control k h ->
      controlFns controls !! k = Some h) /\
  size (controlFns controls) = length (fold_left controlReducer controls []).
Proof.
  intros Hnd. destruct (fromEntries_NoDup _ Hnd) as [Hsize Hfind].
  split; [|exact Hsize].
  intros c k h Hin (Ho & Hc & Hne). apply Hfind.
  rewrite entries_nodes. apply in_flat_map. exists c.
  split; [exact Hin|]. rewrite (own_entry_leaf c h k) by assumption.
  now left.
Qed.

(** X4 at a tree three levels deep with a handler at every level. *)
Lemma controlFns_unique_classes_witness :
  let tree : list (CardControl unit nat) :=
    [leaf "top" 1; group "g1" [leaf "mid" 2; group "g2" [leaf "low" 3]]] in
  NoDup (map fst (fold_left controlReducer tree [])) /\
  controlFns tree !! "low" = Some 3 /\
  size (controlFns tree) = 3.
Proof.
  intros tree.
  assert (Hnd : NoDup (map fst (fold_left controlReducer tree []))).
  { apply (bool_decide_unpack _). vm_compute. reflexivity. }
  split; [exact Hnd|].
  destruct (controlFns_unique_classes unit nat tree Hnd) as [Hfind Hsize].
  split.
  - apply (Hfind (leaf "low" 3) "low" 3).
    + simpl. do 4 right. now left.
    + repeat split. discriminate.
  - rewrite Hsize. reflexivity.
Defined.

Section Renaming.

Context {S H S' H' : Type}.
Variables (on_field : field S -> field S') (on_handler : H -> H').

Let rename (e : string * H) : string * H' := (e.1, on_handler e.2).

Lemma own_entry_map_control (control : CardControl S H) :
  own_entry (map_control on_field on_handler control) =
  map rename (own_entry control).
Proof.
  destruct control as [t a i [cl|] d [o|] cs]; unfold own_entry; simpl;
    try reflexivity.
  now destruct (String.eqb cl "").
Qed.

Lemma document_entries_map_control (control : CardControl S H) :
  document_entries (map_control on_field on_handler control) =
  map rename (document_entries control).
Proof.
  induction control as [c IH] using CardControl_tree_ind.
  assert (E : forall (A B : Type) (x : CardControl A B),
    document_entries x =
    own_entry x ++ flat_map document_entries (children_of x))
    by (intros A B [? ? ? ? ? ? [?|]]; reflexivity).
  rewrite !E, own_entry_map_control, map_app. f_equal.
  destruct c as [t a i cl d o [children|]]; simpl in *; [|reflexivity].
  specialize (IH children eq_refl). unfold children_of. simpl.
  induction IH as [|x l Hx _ IHl]; simpl; [reflexivity|].
  now rewrite map_app, Hx, IHl.
Qed.

Lemma fromEntries_rename (entries : list (string * H)) :
  fromEntries (map rename entries) = on_handler <$> fromEntries entries.
Proof.
  induction entries as [|[k h] entries IH] using rev_ind.
  - rewrite fromEntries_nil. simpl. rewrite fromEntries_nil.
    now rewrite fmap_empty.
  - rewrite map_app. simpl. unfold rename at 2. simpl.
    now rewrite !fromEntries_snoc, fmap_insert, IH.
Qed.

Lemma entries_map_control (controls : list (CardControl S H)) :
  fold_left controlReducer
    (map (map_control on_field on_handler) controls) [] =
  map rename (fold_left controlReducer controls []).
Proof.
  rewrite !reduce_document. simpl.
  induction controls as [|c cs IH]; simpl; [reflexivity|].
  now rewrite map_app, document_entries_map_control, IH.
Qed.

End Renaming.

(** X5. The flattener reads nothing of a control but its class, its onclick
    and its controls. Changing the attribute fields of a tree in any way
    (resolving them, say) leaves the dispatch table as it is, and replacing
    each handler by another gives the same table with the handlers
    replaced, key for key. *)
Theorem controlFns_map_control (S H S' H' : Type)
  (on_field : field S -> field S') (on_handler : H -> H')
  (controls : list (CardControl S H)) :
  controlFns (map (map_control on_field on_handler) controls) =
  on_handler <$> controlFns controls /\
  dom (controlFns (map (map_control on_field on_handler) controls)) =
  dom (controlFns controls) /\
  forall on_field' : field S -> field S,
    controlFns (map (map_control on_field' (fun h => h)) controls) =
    controlFns controls.
Proof.
  assert (E : forall (S2 H2 : Type) (f : field S -> field S2) (g : H -> H2),
    controlFns (map (map_control f g) controls) = g <$> controlFns controls).
  { intros S2 H2 f g. unfold controlFns.
    now rewrite entries_map_control, fromEntries_rename. }
  split; [apply E|]. split.
  - rewrite E. apply dom_fmap_L.
  - intros f. rewrite E. apply map_fmap_id.
Qed.

(** ** Further properties: the applier *)

Section ApplierLaws.

Context {Subject Handler : Type}.
Implicit Types (card : Subject) (control : CardControl Subject Handler)
  (controls : list (CardControl Subject Handler))
  (badges : list (CardBadge Subject)).

Lemma applyCardControls_append controls1 controls2 card :
  applyCardControls card (controls1 ++ controls2) =
  let '(records1, card1) := applyCardControls card controls1 in
  let '(records2, card2) := applyCardControls card1 controls2 in
  (records1 ++ records2, card2).
Proof.
  revert card. induction controls1 as [|c cs IH]; intros card; simpl.
  - now destruct (applyCardControls card controls2).
  - destruct (applyCardControl card c) as [r c1]. rewrite IH.
    destruct (applyCardControls c1 cs) as [rs c2].
    now destruct (applyCardControls c2 controls2).
Qed.

Lemma applyCardBadges_append badges1 badges2 card :
  applyCardBadges card (badges1 ++ badges2) =
  let '(records1, card1) := applyCardBadges card badges1 in
  let '(records2, card2) := applyCardBadges card1 badges2 in
  (records1 ++ records2, card2).
Proof.
  revert card. induction badges1 as [|b bs IH]; intros card; simpl.
  - now destruct (applyCardBadges card badges2).
  - destruct (applyCardBadge card b) as [r c1]. rewrite IH.
    destruct (applyCardBadges c1 bs) as [rs c2].
    now destruct (applyCardBadges c2 badges2).
Qed.

Lemma applyCardControls_mirrors controls :
  Forall (fun c => forall card, mirrors c (fst (applyCardControl card c)))
         controls ->
  forall card, Forall2 mirrors controls (fst (applyCardControls card controls)).
Proof.
  induction 1 as [|c cs Hc _ IH]; intros card; simpl; [constructor|].
  specialize (Hc card). destruct (applyCardControl card c) as [r c1].
  specialize (IH c1). destruct (applyCardControls c1 cs) as [rs c2].
  now constructor.
Qed.

Lemma applyCardControl_mirrors control card :
  mirrors control (fst (applyCardControl card control)).
Proof.
  revert card. induction control as [c IH] using CardControl_tree_ind.
  intros card. rewrite applyCardControl_unfold.
  destruct (functionOrString (control_tooltip c) (VStr "") card) as [t c1].
  destruct (functionOrString (control_aria c) (VStr "") c1) as [a c2].
  destruct (functionOrString (control_icon c) (VStr "") c2) as [i c3].
  destruct (functionOrString (control_disabled c) (VBool false) c3) as [d c4].
  destruct (control_controls c) as [children|] eqn:E.
  - pose proof (applyCardControls_mirrors children (IH children eq_refl) c4)
      as Hm.
    destruct (applyCardControls c4 children) as [rs c5]. simpl in *.
    constructor. unfold children_of. now rewrite E.
  - simpl. constructor. unfold children_of. rewrite E. constructor.
Qed.

End ApplierLaws.

(** X6. Applying a concatenated list is applying its parts in order: the
    records of the first part, then those of the second resolved on the
    card as the first part left it. The same holds for badges. *)
Theorem applyCardControls_app (Subject Handler : Type) (card : Subject)
  (controls1 controls2 : list (CardControl Subject Handler))
  (badges1 badges2 : list (CardBadge Subject)) :
  applyCardControls card (controls1 ++ controls2) =
    (let '(records1, card1) := applyCardControls card controls1 in
     let '(records2, card2) := applyCardControls card1 controls2 in
     (records1 ++ records2, card2)) /\
  applyCardBadges card (badges1 ++ badges2) =
    (let '(records1, card1) := applyCardBadges card badges1 in
     let '(records2, card2) := applyCardBadges card1 badges2 in
     (records1 ++ records2, card2)) /\
  (pure_controls controls1 ->
   fst (applyCardControls card (controls1 ++ controls2)) =
   fst (applyCardControls card controls1) ++
   fst (applyCardControls card controls2)).
Proof.
  split; [apply applyCardControls_append|].
  split; [apply applyCardBadges_append|].
  intros Hpure. rewrite applyCardControls_append.
  pose proof (pure_controls_keep controls1 card Hpure) as Hkeep.
  destruct (applyCardControls card controls1) as [r1 c1]. simpl in Hkeep.
  subst c1. now destruct (applyCardControls card controls2).
Qed.

(** X6 at the default controls followed by a second copy of them. *)
Lemma applyCardControls_app_witness :
  pure_controls Controls.default /\
  fst (applyCardControls last_face_card (Controls.default ++ Controls.default)) =
  fst (applyCardControls last_face_card Controls.default) ++
  fst (applyCardControls last_face_card Controls.default).
Proof.
  assert (H : pure_controls Controls.default).
  { unfold pure_controls. simpl. repeat constructor. }
  split; [exact H|].
  exact (proj2 (proj2 (applyCardControls_app Card clickCallback last_face_card
                         Controls.default Controls.default [] [])) H).
Defined.

(** X7. The resolved tree has the shape of the descriptor tree: one record
    per control, in order, each with the control's class (or "") and, under
    [controls], one record per child in turn, at every depth; whatever the
    computed fields do to the card. *)
Theorem applyCardControls_same_shape (Subject Handler : Type) (card : Subject)
  (controls : list (CardControl Subject Handler)) :
  Forall2 mirrors controls (fst (applyCardControls card controls)) /\
  map (fun record => prop record "class")
      (fst (applyCardControls card controls)) =
  map (fun control => Some (VStr (class_or_empty (control_class control))))
      controls.
Proof.
  assert (H : Forall2 mirrors controls (fst (applyCardControls card controls))).
  { apply applyCardControls_mirrors, Forall_forall.
    intros c _ card'. apply applyCardControl_mirrors. }
  split; [exact H|].
  induction H as [|c r cs rs Hm _ IH]; simpl; [reflexivity|].
  f_equal; [|exact IH]. now destruct Hm.
Qed.

(** X8. Resolution never looks at [onclick]: a tree resolves to the same
    records, and leaves the card the same, whatever handlers its controls
    carry. *)
Theorem applyCardControls_ignores_onclick (Subject H H' : Type)
  (on_handler : H -> H') (card : Subject)
  (controls : list (CardControl Subject H)) :
  applyCardControls card (map (map_control (fun a => a) on_handler) controls) =
  applyCardControls card controls.
Proof.
  assert (Hlist : forall cs : list (CardControl Subject H),
    Forall (fun c => forall card,
              applyCardControl card (map_control (fun a => a) on_handler c) =
              applyCardControl card c) cs ->
    forall card,
      applyCardControls card (map (map_control (fun a => a) on_handler) cs) =
      applyCardControls card cs).
  { induction 1 as [|c cs Hc _ IH]; intros card'; simpl; [reflexivity|].
    rewrite Hc. destruct (applyCardControl card' c) as [r c1].
    now rewrite IH. }
  apply Hlist, Forall_forall. intros c _. clear card controls.
  induction c as [c IH] using CardControl_tree_ind. intros card.
  rewrite !applyCardControl_unfold.
  destruct c as [t a i cl d o [children|]]; simpl in *; [|reflexivity].
  destruct (functionOrString t (VStr "") card) as [vt c1].
  destruct (functionOrString a (VStr "") c1) as [va c2].
  destruct (functionOrString i (VStr "") c2) as [vi c3].
  destruct (functionOrString d (VBool false) c3) as [vd c4].
  now rewrite (Hlist children (IH children eq_refl)).
Qed.

(** ** Further properties: the built-in descriptors on any card *)

(** X9. On every card the default controls resolve to the face-navigation
    group, never disabled itself, whose "next-face" leaf is disabled exactly
    when the card has no next face and whose "prev-face" leaf is disabled
    exactly when it has no previous face; the card is not changed. *)
Theorem default_controls_on_any_card (card : Card) :
  applyCardControls card Controls.default =
  ([VObj [("tooltip", VStr ""); ("aria", VStr ""); ("icon", VStr "");
          ("class", VStr "card-faces"); ("disabled", VBool false);
          ("controls", VArr
             [VObj [("tooltip", VStr "CARD.FaceNext"); ("aria", VStr "");
                    ("icon", VStr "fas fa-caret-up");
                    ("class", VStr "next-face");
                    ("disabled", VBool (negb (hasNextFace card)));
                    ("controls", VArr [])];
              VObj [("tooltip", VStr "CARD.FacePrevious"); ("aria", VStr "");
                    ("icon", VStr "fas fa-caret-down");
                    ("class", VStr "prev-face");
                    ("disabled", VBool (negb (hasPreviousFace card)));
                    ("controls", VArr [])]])]], card) /\
  (prop (fst (applyCardControl card Controls.faceNext)) "disabled" =
     Some (VBool true) <-> hasNextFace card = false) /\
  (prop (fst (applyCardControl card Controls.facePrevious)) "disabled" =
     Some (VBool true) <-> hasPreviousFace card = false).
Proof.
  split; [reflexivity|]. simpl.
  split; (split; [intros [= E] | intros ->]);
    [now apply negb_true_iff | reflexivity
    | now apply negb_true_iff | reflexivity].
Qed.

(** X10. On every card the default badges resolve to three records, suit,
    value and type in that order, whose text is what the card's data holds
    under that name; none of them is hidden, and the card is not changed. *)
Theorem default_badges_on_any_card (card : Card) :
  applyCardBadges card Badges.default =
  ([VObj [("tooltip", VStr "CARD.Suit"); ("text", data_suit (data card));
          ("hide", VBool false); ("class", VStr "card-suit")];
    VObj [("tooltip", VStr "CARD.Value"); ("text", data_value (data card));
          ("hide", VBool false); ("class", VStr "card-value")];
    VObj [("tooltip", VStr "CARD.Type"); ("text", data_type (data card));
          ("hide", VBool false); ("class", VStr "card-type")]], card) /\
  Forall (fun record => prop record "hide" = Some (VBool false))
         (fst (applyCardBadges card Badges.default)).
Proof.
  split; [reflexivity|]. simpl. repeat constructor.
Qed.

(** ** Further properties: the controls of a hand *)

Section Hand.

Context {Call : Type}.
Variables (i18n_format : string -> list (string * value) -> value)
          (playDialog : Card -> Call)
          (super_controls : list (CardControl Card (Event -> Card -> Call))).

Let hand := MonarchHand.controls i18n_format playDialog super_controls.
Let play : Event -> Card -> Call := fun event card => playDialog card.

Lemma hand_entries :
  fold_left controlReducer hand [] =
  fold_left controlReducer super_controls [] ++ [("play-card", play)].
Proof. unfold hand, MonarchHand.controls. now rewrite entries_app. Qed.

Lemma hand_table :
  controlFns hand = <["play-card" := play]> (controlFns super_controls).
Proof. unfold controlFns. now rewrite hand_entries, fromEntries_snoc. Qed.

Lemma hand_records (card : Card) :
  applyCardControls card hand =
  let '(inherited, card1) := applyCardControls card super_controls in
  (inherited ++
   [VObj [("tooltip", VStr ""); ("aria", VStr ""); ("icon", VStr "");
          ("class", VStr "basic-controls"); ("disabled", VBool false);
          ("controls", VArr
             [VObj [("tooltip", VStr "CARD.Play");
                    ("aria", i18n_format "monarch.aria.playCard"
                                         [("name", card_name card1)]);
                    ("icon", VStr "fas fa-chevron-circle-right");
                    ("class", VStr "play-card"); ("disabled", VBool false);
                    ("controls", VArr [])]])]], card1).
Proof.
  unfold hand, MonarchHand.controls. rewrite applyCardControls_append.
  now destruct (applyCardControls card super_controls).
Qed.

End Hand.

(** X11. In a hand, whatever controls it inherits, a click on "play-card"
    is dispatched to the hand's play handler, which opens the play dialog
    for the clicked card: the hand's group comes last, so it also takes the
    class over from an inherited control. Every other class is dispatched
    as the inherited controls have it, and "basic-controls", the group, is
    no key unless inherited as one. *)
Theorem hand_dispatches_play (Call : Type)
  (i18n_format : string -> list (string * value) -> value)
  (playDialog : Card -> Call)
  (super_controls : list (CardControl Card (Event -> Card -> Call))) :
  let hand := MonarchHand.controls i18n_format playDialog super_controls in
  (exists play, controlFns hand !! "play-card" = Some play /\
                forall event card, play event card = playDialog card) /\
  (forall k, k <> "play-card" ->
             controlFns hand !! k = controlFns super_controls !! k) /\
  dom (controlFns hand) = {["play-card"]} ∪ dom (controlFns super_controls).
Proof.
  intros hand. unfold hand. rewrite hand_table. split; [|split].
  - eexists. split; [apply lookup_insert_eq | reflexivity].
  - intros k Hk. now apply lookup_insert_ne.
  - apply dom_insert_L.
Qed.

(** X11 for a hand that inherits the default controls: "next-face" is
    still dispatched as the default controls have it. *)
Lemma hand_dispatches_play_witness :
  "next-face" <> "play-card" /\
  controlFns (MonarchHand.controls (fun _ _ => VStr "Play")
                (fun card => CardUpdate card []) Controls.default)
    !! "next-face" = controlFns Controls.default !! "next-face".
Proof.
  assert (H : "next-face" <> "play-card") by discriminate.
  split; [exact H|].
  exact (proj1 (proj2 (hand_dispatches_play HostCall (fun _ _ => VStr "Play")
                         (fun card => CardUpdate card []) Controls.default))
           "next-face" H).
Defined.

(** X12. In a hand, the records of a card are the inherited records
    followed by the "basic-controls" group, whose one child is the play
    control: never disabled, with the aria label formatted from the name of
    the card. With inherited controls whose fields are pure the card is not
    changed. *)
Theorem hand_records_end_with_play (Call : Type)
  (i18n_format : string -> list (string * value) -> value)
  (playDialog : Card -> Call)
  (super_controls : list (CardControl Card (Event -> Card -> Call)))
  (card : Card) :
  pure_controls super_controls ->
  applyCardControls card
    (MonarchHand.controls i18n_format playDialog super_controls) =
  (fst (applyCardControls card super_controls) ++
   [VObj [("tooltip", VStr ""); ("aria", VStr ""); ("icon", VStr "");
          ("class", VStr "basic-controls"); ("disabled", VBool false);
          ("controls", VArr
             [VObj [("tooltip", VStr "CARD.Play");
                    ("aria", i18n_format "monarch.aria.playCard"
                                         [("name", card_name card)]);
                    ("icon", VStr "fas fa-chevron-circle-right");
                    ("class", VStr "play-card"); ("disabled", VBool false);
                    ("controls", VArr [])]])]], card).
Proof.
  intros Hpure. rewrite hand_records.
  pose proof (pure_controls_keep super_controls card Hpure) as Hkeep.
  destruct (applyCardControls card super_controls) as [rs c1].
  simpl in Hkeep. now subst c1.
Qed.

(** X12 for a hand that inherits the default controls. *)
Lemma hand_records_end_with_play_witness :
  pure_controls Controls.default /\
  length (fst (applyCardControls last_face_card
                 (MonarchHand.controls (fun _ _ => VStr "Play Ace")
                    (fun card => CardUpdate card []) Controls.default))) = 2.
Proof.
  assert (H : pure_controls Controls.default).
  { unfold pure_controls. simpl. repeat constructor. }
  split; [exact H|].
  rewrite (hand_records_end_with_play HostCall (fun _ _ => VStr "Play Ace")
             (fun card => CardUpdate card []) Controls.default
             last_face_card H).
  reflexivity.
Defined.

(** ** Further properties: turning faces *)

Section Faces.

Implicit Types (card : Card) (event : Event).


End Faces.


